(** * Task Manager: the task list behind the Express routes

    A shallow embedding of the two [routes/taskRoutes.js] routers of the
    repository (the JSON API and the EJS view variant) together with the
    pieces of the JavaScript runtime they call: [parseInt], truthiness,
    [Array.prototype.push], [Array.prototype.splice], and the
    [fs.readFileSync] / [JSON.parse] / [JSON.stringify] /
    [fs.writeFileSync] cycle over [tasks.json]. *)

From Stdlib Require Import ZArith String Ascii List Bool Lia.
From Stdlib Require Import DecimalString DecimalNat.
From stdpp Require Import base list.
Import ListNotations.
Set Warnings "-register-all".
Local Open Scope string_scope.
Local Open Scope Z_scope.

(** ** JavaScript values

    Every value the routers touch comes out of [JSON.parse] (the stored file,
    the request body) or is built by an object literal, so JSON values are
    the value domain.  Finite numbers are the integer-valued ones; a numeral
    beyond the range of a double, such as [1e400], parses to [Infinity] or
    [-Infinity], which is [JInfinity]; [-0] is not told apart from [0],
    neither by the routers nor by [JSON.stringify], which writes both as
    [0].  A [string] is a sequence of code
    units below 256.  Object fields are kept in order and have distinct
    keys.  [undefined] is not a JSON value: a property read that may yield
    it has type [option json]. *)

Inductive json : Type :=
| JNull
| JBool (b : bool)
| JNum (n : Z)
| JInfinity (negative : bool)
| JStr (s : string)
| JArr (items : list json)
| JObj (fields : list (string * json)).

(** Own-property lookup in an object literal. *)
Fixpoint assoc (key : string) (fields : list (string * json)) : option json :=
  match fields with
  | [] => None
  | (k, v) :: rest => if String.eqb k key then Some v else assoc key rest
  end.

(** ToBoolean on a JSON value: [null], [false], [0] and [""] are falsy. *)
Definition truthy (v : json) : bool :=
  match v with
  | JNull => false
  | JBool b => b
  | JNum n => negb (n =? 0)
  | JStr s => negb (String.eqb s "")
  | JInfinity _ | JArr _ | JObj _ => true
  end.

(** The value that the text [JSON.stringify(v)] encodes: [JSON.stringify]
    writes a non-finite number as [null], at any depth, and everything else
    as it is. *)
Fixpoint serialized (v : json) : json :=
  match v with
  | JInfinity _ => JNull
  | JArr items => JArr (map serialized items)
  | JObj fields => JObj (map (fun kv => (fst kv, serialized (snd kv))) fields)
  | _ => v
  end.

(** The value holds no non-finite number. *)
Fixpoint finite (v : json) : bool :=
  match v with
  | JInfinity _ => false
  | JArr items => forallb finite items
  | JObj fields => forallb (fun kv => finite (snd kv)) fields
  | _ => true
  end.

(** [!task], where [task] may be [undefined]. *)
Definition falsy (task : option json) : bool :=
  match task with
  | None => true
  | Some v => negb (truthy v)
  end.

(** ** parseInt *)

(** StrWhiteSpaceChar among the code units below 256: TAB, LF, VT, FF, CR,
    SP and NBSP. *)
Definition is_space (c : ascii) : bool :=
  match N_of_ascii c with
  | 9 | 10 | 11 | 12 | 13 | 32 | 160 => true
  | _ => false
  end%N.

Fixpoint trim_start (s : string) : string :=
  match s with
  | String c rest => if is_space c then trim_start rest else s
  | EmptyString => s
  end.

(** The value of [c] as a digit in the given radix, if it is one. *)
Definition digit (radix : Z) (c : ascii) : option Z :=
  let n := Z.of_N (N_of_ascii c) in
  let v := if (48 <=? n) && (n <=? 57) then Some (n - 48)
           else if (97 <=? n) && (n <=? 122) then Some (n - 87)
           else if (65 <=? n) && (n <=? 90) then Some (n - 55)
           else None in
  match v with
  | Some d => if d <? radix then Some d else None
  | None => None
  end.

(** The mathematical value of the longest prefix of [s] made of radix-[radix]
    digits; [acc] is the value read so far, [None] while no digit was seen. *)
Fixpoint digits (radix : Z) (acc : option Z) (s : string) : option Z :=
  match s with
  | EmptyString => acc
  | String c rest =>
      match digit radix c with
      | Some d => digits radix (Some (radix * default 0 acc + d)) rest
      | None => acc
      end
  end.

(** [parseInt(input)] with no radix argument; [None] is [NaN].  Leading
    white space is skipped, one sign is read, a [0x]/[0X] prefix selects
    radix 16, and the digits stop at the first character that is not one:
    whatever follows is ignored. *)
Definition parseInt (input : string) : option Z :=
  let s := trim_start input in
  let '(sign, s) :=
    match s with
    | String "-" rest => (-1, rest)
    | String "+" rest => (1, rest)
    | _ => (1, s)
    end in
  let '(radix, s) :=
    match s with
    | String "0" (String "x" rest) => (16, rest)
    | String "0" (String "X" rest) => (16, rest)
    | _ => (10, s)
    end in
  match digits radix None s with
  | Some m => Some (sign * m)
  | None => None
  end.

(** ** The file behind [filePath]

    The text of [tasks.json] is kept up to what [JSON.parse] makes of it:
    either it is the text [JSON.stringify(v, null, 2)] produces for a value
    [v], or it is text that [JSON.parse] rejects.  Parsing the former gives
    [v] back with every non-finite number turned into [null], which is how
    it was written; [Encoded] keeps the value that was handed to
    [JSON.stringify].  Text edited by hand so that it holds a numeral
    beyond the range of a double is not represented.  [written] logs every
    payload handed to
    [fs.writeFileSync], latest first, so that a write which puts back an
    equal value is still visible. *)

Inductive text : Type :=
| Junk
| Encoded (v : json).

Record disk : Type := Disk {
  file : option text;     (* [None]: there is no file at [filePath] *)
  written : list text
}.

Inductive exn : Type := ENOENT | SyntaxError | TypeError.

Inductive outcome (A : Type) : Type :=
| Return (a : A)
| Throw (e : exn).
Arguments Return {A} a.
Arguments Throw {A} e.

(** Synchronous code over the disk that may throw. *)
Definition io (A : Type) : Type := disk -> outcome A * disk.

Definition ret {A} (a : A) : io A := fun d => (Return a, d).

Definition throw {A} (e : exn) : io A := fun d => (Throw e, d).

Definition bind {A B} (m : io A) (k : A -> io B) : io B :=
  fun d =>
    match m d with
    | (Return a, d') => k a d'
    | (Throw e, d') => (Throw e, d')
    end.

(** [try { body } catch (error) { handler }] *)
Definition try_catch {A} (body : io A) (handler : exn -> io A) : io A :=
  fun d =>
    match body d with
    | (Return a, d') => (Return a, d')
    | (Throw e, d') => handler e d'
    end.

Declare Scope io_scope.
Delimit Scope io_scope with io.
Notation "x <- m ;; k" := (bind m (fun x => k))
  (at level 100, m at next level, right associativity) : io_scope.
Notation "m ;; k" := (bind m (fun _ => k))
  (at level 100, right associativity) : io_scope.
Local Open Scope io_scope.

Definition fs_readFileSync : io text :=
  fun d =>
    match file d with
    | Some data => (Return data, d)
    | None => (Throw ENOENT, d)
    end.

Definition fs_writeFileSync (data : text) : io unit :=
  fun d => (Return tt, {| file := Some data; written := data :: written d |}).

Definition JSON_parse (data : text) : io json :=
  match data with
  | Encoded v => ret (serialized v)
  | Junk => throw SyntaxError
  end.

Definition JSON_stringify (v : json) : text := Encoded v.

(** ** Operations on the value read back as [tasks]

    [readTasks] returns whatever [JSON.parse] produced, which need not be an
    array; a method call on a receiver that has no such method throws. *)

(** [tasks.push(x)]: the receiver after the call. *)
Definition push (tasks : json) (x : json) : io json :=
  match tasks with
  | JArr items => ret (JArr (items ++ [x]))
  | _ => throw TypeError
  end.

(** [tasks.splice(start, deleteCount)]: the array of removed elements and the
    receiver after the call. *)
Definition splice (tasks : json) (start deleteCount : Z) : io (json * json) :=
  match tasks with
  | JArr items =>
      let len := Z.of_nat (length items) in
      let actualStart := if start <? 0 then Z.max (len + start) 0
                         else Z.min start len in
      let actualDeleteCount := Z.min (Z.max deleteCount 0) (len - actualStart) in
      let k := Z.to_nat actualStart in
      let c := Z.to_nat actualDeleteCount in
      ret (JArr (take c (drop k items)),
           JArr (take k items ++ drop (k + c)%nat items))
  | _ => throw TypeError
  end.

(** [tasks.length]; reading a property of [null] throws. *)
Definition get_length (tasks : json) : io (option json) :=
  match tasks with
  | JNull => throw TypeError
  | JArr items => ret (Some (JNum (Z.of_nat (length items))))
  | JStr s => ret (Some (JNum (Z.of_nat (String.length s))))
  | JObj fields => ret (assoc "length" fields)
  | JBool _ | JNum _ | JInfinity _ => ret None
  end.

(** [const { task } = body]; destructuring [null] throws. *)
Definition get_task (body : json) : io (option json) :=
  match body with
  | JNull => throw TypeError
  | JObj fields => ret (assoc "task" fields)
  | _ => ret None
  end.

(** [index >= len] for a number [index].  Against [undefined] every
    comparison is false; [null] and booleans convert to [0] and [1]; every
    number is at least [-Infinity] and none is at least [Infinity].  A
    string, array or object operand goes through ToPrimitive and
    StringToNumber, which is left to [coerce_ge]. *)
Definition ge (coerce_ge : Z -> json -> bool) (index : Z) (len : option json)
  : bool :=
  match len with
  | None => false
  | Some (JNum n) => n <=? index
  | Some (JInfinity negative) => negative
  | Some (JBool b) => (if b then 1 else 0) <=? index
  | Some JNull => 0 <=? index
  | Some v => coerce_ge index v
  end.

(** ** Responses *)

Inductive response : Type :=
| json_response (status : Z) (body : json)     (* [res.status(s).json(...)] *)
| send_response (status : Z) (body : string)   (* [res.status(s).send(body)] *)
| redirect (location : string)                 (* [res.redirect(location)] *)
| render (view : string) (locals : json)       (* [res.render(view, locals)] *)
| uncaught (e : exn).     (* the handler threw: Express answers the error *)

(** [res.json(body)] sends the text [JSON.stringify(body)]; the response
    carries the value that text encodes. *)
Definition res_json (status : Z) (body : json) : io response :=
  ret (json_response status (serialized body)).

(** Express runs a route handler and turns a thrown exception into an error
    response; the disk is as the handler left it. *)
Definition handle (handler : io response) (d : disk) : response * disk :=
  match handler d with
  | (Return r, d') => (r, d')
  | (Throw e, d') => (uncaught e, d')
  end.

(** ** The JSON API router *)

Module Api.
Section Routes.
Variable coerce_ge : Z -> json -> bool.

Definition readTasks : io json :=
  try_catch (data <- fs_readFileSync;; JSON_parse data)
            (fun _ => ret (JArr [])).

Definition writeTasks (tasks : json) : io unit :=
  fs_writeFileSync (JSON_stringify tasks).

Definition task_required : response :=
  json_response 400 (JObj [("error", JStr "Task is required")]).

Definition invalid_index : response :=
  json_response 400 (JObj [("error", JStr "Invalid task index")]).

(** [router.get("/")] *)
Definition get : io response :=
  tasks <- readTasks;;
  res_json 200 tasks.

(** [router.post("/")] *)
Definition post (body : json) : io response :=
  task <- get_task body;;
  match task with
  | Some t =>
      if negb (truthy t) then ret task_required
      else
        tasks <- readTasks;;
        tasks <- push tasks t;;
        writeTasks tasks;;
        res_json 200
          (JObj [("message", JStr "Task added successfully");
                 ("tasks", tasks)])
  | None => ret task_required
  end.

(** [router.delete("/:index")]; [||] evaluates [tasks.length] only when
    the two tests before it are false. *)
Definition delete (index : string) : io response :=
  tasks <- readTasks;;
  match parseInt index with
  | None => ret invalid_index
  | Some index =>
      if index <? 0 then ret invalid_index
      else
        len <- get_length tasks;;
        if ge coerce_ge index len then ret invalid_index
        else
          spliced <- splice tasks index 1;;
          let '(deletedTask, tasks) := spliced in
          writeTasks tasks;;
          res_json 200
            (JObj [("message", JStr "Task deleted successfully");
                   ("deletedTask", deletedTask);
                   ("tasks", tasks)])
  end.
End Routes.
End Api.

(** ** The EJS view router *)

Module Views.
Section Routes.
Variable coerce_ge : Z -> json -> bool.

Definition readTasks : io json :=
  try_catch (data <- fs_readFileSync;; JSON_parse data)
            (fun _ => ret (JArr [])).

Definition task_required : response := send_response 400 "Task is required".

Definition invalid_index : response := send_response 400 "Invalid task index".

(** [router.get("/")] *)
Definition get : io response :=
  tasks <- readTasks;;
  ret (render "index" (JObj [("tasks", tasks)])).

(** [router.post("/add")] *)
Definition post_add (body : json) : io response :=
  task <- get_task body;;
  match task with
  | Some t =>
      if negb (truthy t) then ret task_required
      else
        tasks <- readTasks;;
        tasks <- push tasks t;;
        fs_writeFileSync (JSON_stringify tasks);;
        ret (redirect "/")
  | None => ret task_required
  end.

(** [router.get("/delete/:index")] *)
Definition get_delete (index : string) : io response :=
  tasks <- readTasks;;
  match parseInt index with
  | None => ret invalid_index
  | Some index =>
      if index <? 0 then ret invalid_index
      else
        len <- get_length tasks;;
        if ge coerce_ge index len then ret invalid_index
        else
          spliced <- splice tasks index 1;;
          let '(_, tasks) := spliced in
          fs_writeFileSync (JSON_stringify tasks);;
          ret (redirect "/")
  end.
End Routes.
End Views.

(** ** The scenario of the specification, run against the JSON API *)

Definition add_body (task : json) : json := JObj [("task", task)].

(** Runs the requests in order and collects the responses. *)
Fixpoint serve (requests : list (io response)) (d : disk)
  : list response * disk :=
  match requests with
  | [] => ([], d)
  | h :: rest =>
      let '(r, d') := handle h d in
      let '(rs, d'') := serve rest d' in
      (r :: rs, d'')
  end.

Definition scenario (coerce_ge : Z -> json -> bool) : list (io response) :=
  [ Api.post (add_body (JStr "Buy milk"));
    Api.get;
    Api.post (add_body (JStr "Walk dog"));
    Api.get;
    Api.delete coerce_ge "0";
    Api.get;
    Api.delete coerce_ge "5";
    Api.get ].

(** ** Derived notions used to state the properties *)

(** What a read of the disk yields: the value the text encodes when the
    file holds one, the empty array otherwise. *)
Definition loaded (d : disk) : json :=
  match file d with
  | Some (Encoded v) => serialized v
  | Some Junk | None => JArr []
  end.

(** The disk after [fs.writeFileSync(filePath, JSON.stringify(tasks, null, 2))]. *)
Definition saved (tasks : json) (d : disk) : disk :=
  {| file := Some (Encoded tasks); written := Encoded tasks :: written d |}.

Definition added_response (tasks : json) : response :=
  json_response 200
    (JObj [("message", JStr "Task added successfully"); ("tasks", tasks)]).

Definition deleted_response (removed remaining : json) : response :=
  json_response 200
    (JObj [("message", JStr "Task deleted successfully");
           ("deletedTask", removed);
           ("tasks", remaining)]).

(** The test [isNaN(index) || index < 0 || index >= tasks.length] against an
    array of the given length. *)
Definition rejected (index : option Z) (len : nat) : bool :=
  match index with
  | None => true
  | Some i => (i <? 0) || (Z.of_nat len <=? i)
  end.

(** The ways a DELETE can end. *)
Inductive ending (d : disk) : response * disk -> Prop :=
| ends_invalid_json : ending d (Api.invalid_index, d)
| ends_invalid_text : ending d (Views.invalid_index, d)
| ends_uncaught e : ending d (uncaught e, d)
| ends_deleted removed remaining :
    ending d (deleted_response removed remaining, saved remaining d)
| ends_redirect remaining : ending d (redirect "/", saved remaining d).

(** Nesting depth of a value; an array is deeper than each of its elements. *)
Fixpoint depth (v : json) : nat :=
  match v with
  | JArr items => S (fold_right (fun x acc => Nat.max (depth x) acc) 0%nat items)
  | JObj fields =>
      S (fold_right (fun kv acc => Nat.max (depth (snd kv)) acc) 0%nat fields)
  | _ => 0%nat
  end.

(** The decimal text of a position, as the page writes it into each delete
    link ([/delete/<%= index %>]). *)
Definition numeral (n : nat) : string :=
  NilEmpty.string_of_uint (Nat.to_uint n).

(** A stand-in for the comparison left to the runtime; the files below hold
    arrays, whose [length] is a number, so it is never consulted. *)
Definition never_ge : Z -> json -> bool := fun _ _ => false.

(** The reading of "absent or empty" that the specification gives for a task
    value: no [task] field, [null], or the empty text. *)
Definition spec_absent_or_empty (task : option json) : bool :=
  match task with
  | None | Some JNull | Some (JStr "") => true
  | Some _ => false
  end.

(** Sample stores. *)
Definition no_file : disk := Disk None [].

Definition object_file : disk := Disk (Some (Encoded (JObj []))) [].

Definition one_task : disk := Disk (Some (Encoded (JArr [JStr "Walk dog"]))) [].

Definition two_tasks : disk :=
  Disk (Some (Encoded (JArr [JStr "a"; JStr "b"]))) [].


(** ** Requests, as the two routers dispatch them

    Each router registers three routes: the listing, the addition and the
    removal.  A request is given by the route it matched together with the
    body or the [:index] parameter the handler reads. *)

Inductive request : Type :=
| List_tasks                      (* [GET /] *)
| Add_task (body : json)          (* [POST /] and [POST /add] *)
| Delete_task (index : string).   (* [DELETE /:index] and [GET /delete/:index] *)

Definition api_route (coerce_ge : Z -> json -> bool) (r : request)
  : io response :=
  match r with
  | List_tasks => Api.get
  | Add_task body => Api.post body
  | Delete_task index => Api.delete coerce_ge index
  end.

Definition views_route (coerce_ge : Z -> json -> bool) (r : request)
  : io response :=
  match r with
  | List_tasks => Views.get
  | Add_task body => Views.post_add body
  | Delete_task index => Views.get_delete coerce_ge index
  end.

(** The value is an array. *)
Definition is_array (v : json) : bool :=
  match v with
  | JArr _ => true
  | _ => false
  end.

(** A payload handed to [fs.writeFileSync] that encodes an array. *)
Definition array_text (t : text) : bool :=
  match t with
  | Encoded v => is_array v
  | Junk => false
  end.

(** Sample stores that do not hold an array. *)
Definition null_file : disk := Disk (Some (Encoded JNull)) [].

Definition string_file : disk := Disk (Some (Encoded (JStr "abc"))) [].

Definition junk_file : disk := Disk (Some Junk) [].

(** * Properties *)

Section Serialising.

(** Induction on values through the arrays and objects that hold them. *)
Fixpoint json_nested_ind (P : json -> Prop)
    (HNull : P JNull)
    (HBool : forall b, P (JBool b))
    (HNum : forall n, P (JNum n))
    (HInf : forall negative, P (JInfinity negative))
    (HStr : forall s, P (JStr s))
    (HArr : forall items, Forall P items -> P (JArr items))
    (HObj : forall fields, Forall (fun kv => P (snd kv)) fields ->
                           P (JObj fields))
    (v : json) {struct v} : P v :=
  let rec := json_nested_ind P HNull HBool HNum HInf HStr HArr HObj in
  match v with
  | JNull => HNull
  | JBool b => HBool b
  | JNum n => HNum n
  | JInfinity negative => HInf negative
  | JStr s => HStr s
  | JArr items =>
      HArr items
        ((fix go (l : list json) : Forall P l :=
            match l with
            | [] => @List.Forall_nil _ P
            | x :: r => @List.Forall_cons _ P x r (rec x) (go r)
            end) items)
  | JObj fields =>
      HObj fields
        ((fix go (l : list (string * json))
            : Forall (fun kv => P (snd kv)) l :=
            match l with
            | [] => @List.Forall_nil _ _
            | kv :: r => @List.Forall_cons _ _ kv r (rec (snd kv)) (go r)
            end) fields)
  end.

Lemma map_fixed {A} (f : A -> A) (l : list A) :
  Forall (fun x => f x = x) l <-> map f l = l.
Proof.
  induction l as [|x l IH]; cbn [map].
  - split; [reflexivity | constructor].
  - split.
    + intros H. inversion H as [|? ? Hx Hl]; subst.
      rewrite Hx. f_equal. apply IH. exact Hl.
    + intros H. injection H as Hx Hl. constructor; [exact Hx | apply IH, Hl].
Qed.

(** What was written is read back as it is: serialising twice is
    serialising once. *)
Lemma serialized_idem (v : json) : serialized (serialized v) = serialized v.
Proof.
  induction v as [| b | n | neg | s | items IH | fields IH]
    using json_nested_ind; cbn [serialized]; try reflexivity.
  - f_equal. rewrite map_map. apply map_ext_Forall. exact IH.
  - f_equal. rewrite map_map. apply map_ext_Forall.
    eapply Forall_impl; [exact IH|].
    intros [k x] Hx. cbn [fst snd] in *. rewrite Hx. reflexivity.
Qed.

(** A value without non-finite numbers is written as it is. *)
Lemma serialized_finite (v : json) : finite v = true -> serialized v = v.
Proof.
  induction v as [| b | n | neg | s | items IH | fields IH]
    using json_nested_ind; cbn [serialized finite]; intros Hfin;
    try reflexivity; try discriminate Hfin.
  - f_equal. apply map_fixed. rewrite forallb_forall in Hfin.
    rewrite Forall_forall in *. intros x Hx.
    apply (IH x Hx). apply Hfin. apply list_elem_of_In. exact Hx.
  - f_equal. apply map_fixed. rewrite forallb_forall in Hfin.
    rewrite Forall_forall in *. intros [k x] Hx.
    cbn [fst snd]. f_equal. apply (IH (k, x) Hx).
    apply (Hfin (k, x)). apply list_elem_of_In. exact Hx.
Qed.

(** Serialising keeps a value an array or not an array. *)
Lemma is_array_serialized (v : json) : is_array (serialized v) = is_array v.
Proof. destruct v; reflexivity. Qed.

(** The elements of an array that was read from the disk are written back
    as they are. *)
Lemma loaded_fixed (d : disk) : serialized (loaded d) = loaded d.
Proof.
  unfold loaded. destruct (file d) as [[|v]|]; try reflexivity.
  apply serialized_idem.
Qed.

Lemma loaded_array_fixed (d : disk) (l : list json) :
  loaded d = JArr l -> Forall (fun x => serialized x = x) l.
Proof.
  intros Hload. pose proof (loaded_fixed d) as H. rewrite Hload in H.
  cbn [serialized] in H. injection H as H. apply map_fixed. exact H.
Qed.

Lemma serialized_fixed_array (l : list json) :
  Forall (fun x => serialized x = x) l -> serialized (JArr l) = JArr l.
Proof.
  intros H. cbn [serialized]. f_equal. apply map_fixed. exact H.
Qed.

End Serialising.

Section Reading.

(** [readTasks] never throws and never touches the disk. *)
Lemma readTasks_loaded (d : disk) :
  Api.readTasks d = (Return (loaded d), d).
Proof.
  destruct d as [[[|v]|] w]; reflexivity.
Qed.

(** The two routers read the file in the same way. *)
Lemma readTasks_same : Views.readTasks = Api.readTasks.
Proof. reflexivity. Qed.

Lemma readTasks_array (d : disk) (l : list json) :
  Api.readTasks d = (Return (JArr l), d) <-> loaded d = JArr l.
Proof.
  rewrite readTasks_loaded. split; intros H; congruence.
Qed.

End Reading.

Section Splice.

(** Inside the bounds, [splice(i, 1)] takes out exactly position [i]. *)
Lemma splice_one (l : list json) (i : Z) (d : disk) :
  0 <= i < Z.of_nat (length l) ->
  splice (JArr l) i 1 d =
    (Return (JArr (take 1 (drop (Z.to_nat i) l)),
             JArr (delete (Z.to_nat i) l)), d).
Proof.
  intros Hi. unfold splice, ret.
  destruct (Z.ltb_spec i 0) as [Hneg|_]; [lia|].
  replace (Z.min i (Z.of_nat (length l))) with i by lia.
  replace (Z.min (Z.max 1 0) (Z.of_nat (length l) - i)) with 1 by lia.
  change (Z.to_nat 1) with 1%nat.
  rewrite delete_take_drop.
  replace (Z.to_nat i + 1)%nat with (S (Z.to_nat i)) by lia.
  reflexivity.
Qed.

(** No value is the one-element array that holds it. *)
Lemma singleton_array_differs (x : json) : JArr [x] <> x.
Proof.
  intros H. apply (f_equal depth) in H. cbn in H. lia.
Qed.

Lemma take_one_drop (l : list json) (n : nat) (x : json) :
  l !! n = Some x -> take 1 (drop n l) = [x].
Proof.
  revert n. induction l as [|y l IH]; intros [|n] H; simplify_eq/=.
  - reflexivity.
  - apply IH. assumption.
Qed.

End Splice.

Section Deleting.
Variable coerce_ge : Z -> json -> bool.

(** The DELETE handler over a file that loads as the array [l]. *)
Lemma api_delete_array (d : disk) (l : list json) (index : string) :
  Api.readTasks d = (Return (JArr l), d) ->
  handle (Api.delete coerce_ge index) d =
    if rejected (parseInt index) (length l) then (Api.invalid_index, d)
    else
      let n := Z.to_nat (default 0 (parseInt index)) in
      (deleted_response (JArr (take 1 (drop n l))) (JArr (delete n l)),
       saved (JArr (delete n l)) d).
Proof.
  intros Hread. unfold handle, Api.delete, bind at 1. rewrite Hread.
  destruct (parseInt index) as [i|]; [|reflexivity]. cbn [rejected default].
  destruct (Z.ltb_spec i 0) as [Hneg|Hpos]; [reflexivity|].
  cbn [orb get_length]. unfold bind at 1, ret at 1. cbn [ge].
  destruct (Z.leb_spec (Z.of_nat (length l)) i) as [Hbig|Hin]; [reflexivity|].
  unfold bind at 1. rewrite splice_one by lia.
  assert (Hfix : Forall (fun x => serialized x = x) l).
  { apply (loaded_array_fixed d), readTasks_array, Hread. }
  cbv beta iota zeta.
  unfold bind, Api.writeTasks, fs_writeFileSync, JSON_stringify, res_json, ret.
  unfold deleted_response, saved. cbn [serialized map fst snd].
  change (JArr (map serialized ?a)) with (serialized (JArr a)).
  rewrite !serialized_fixed_array
    by auto using Forall_delete, Forall_take, Forall_drop.
  reflexivity.
Qed.

Lemma views_delete_array (d : disk) (l : list json) (index : string) :
  Views.readTasks d = (Return (JArr l), d) ->
  handle (Views.get_delete coerce_ge index) d =
    if rejected (parseInt index) (length l) then (Views.invalid_index, d)
    else
      let n := Z.to_nat (default 0 (parseInt index)) in
      (redirect "/", saved (JArr (delete n l)) d).
Proof.
  intros Hread. unfold handle, Views.get_delete, bind at 1. rewrite Hread.
  destruct (parseInt index) as [i|]; [|reflexivity]. cbn [rejected default].
  destruct (Z.ltb_spec i 0) as [Hneg|Hpos]; [reflexivity|].
  cbn [orb get_length]. unfold bind at 1, ret at 1. cbn [ge].
  destruct (Z.leb_spec (Z.of_nat (length l)) i) as [Hbig|Hin]; [reflexivity|].
  unfold bind at 1. rewrite splice_one by lia. reflexivity.
Qed.

Lemma rejected_iff (index : option Z) (len : nat) :
  rejected index len = true <->
  index = None \/ exists i, index = Some i /\ (i < 0 \/ Z.of_nat len <= i).
Proof.
  destruct index as [i|]; cbn [rejected].
  - rewrite orb_true_iff, Z.ltb_lt, Z.leb_le. split.
    + intros H. right. exists i. split; [reflexivity | exact H].
    + intros [H | (j & Hj & H)]; [discriminate | congruence].
  - split; [intros _; left; reflexivity | reflexivity].
Qed.

End Deleting.

Section Failing.
Variable coerce_ge : Z -> json -> bool.

(** Whatever the file holds, only a successful DELETE has written. *)
Lemma api_delete_ending (d : disk) (index : string) :
  ending d (handle (Api.delete coerce_ge index) d).
Proof.
  destruct (loaded d) as [| b | n | neg | s | l | fields] eqn:Hload.
  7: set (len := assoc "length" fields).
  all: try (apply readTasks_array in Hload;
            rewrite (api_delete_array coerce_ge d l index Hload);
            destruct (rejected _ _); constructor).
  all: unfold handle, Api.delete, bind at 1;
    rewrite readTasks_loaded, Hload; cbv beta iota;
    destruct (parseInt index) as [i|]; [|constructor];
    destruct (i <? 0); [constructor|];
    cbn [get_length]; try constructor;
    unfold bind at 1, ret at 1; try fold len;
    destruct (ge coerce_ge i _); constructor.
Qed.

Lemma views_delete_ending (d : disk) (index : string) :
  ending d (handle (Views.get_delete coerce_ge index) d).
Proof.
  destruct (loaded d) as [| b | n | neg | s | l | fields] eqn:Hload.
  7: set (len := assoc "length" fields).
  all: try (apply readTasks_array in Hload;
            rewrite (views_delete_array coerce_ge d l index Hload);
            destruct (rejected _ _); constructor).
  all: unfold handle, Views.get_delete, bind at 1;
    rewrite readTasks_same, readTasks_loaded, Hload; cbv beta iota;
    destruct (parseInt index) as [i|]; [|constructor];
    destruct (i <? 0); [constructor|];
    cbn [get_length]; try constructor;
    unfold bind at 1, ret at 1; try fold len;
    destruct (ge coerce_ge i _); constructor.
Qed.

Lemma ending_invalid (d : disk) (out : response * disk) :
  ending d out ->
  fst out = Api.invalid_index \/ fst out = Views.invalid_index ->
  snd out = d.
Proof.
  intros [] [H|H]; try reflexivity; discriminate H.
Qed.

End Failing.

Section Adding.

(** The POST handler on a body that is an object. *)
Lemma api_post_object (fields : list (string * json)) (d : disk) :
  handle (Api.post (JObj fields)) d =
    match assoc "task" fields with
    | Some t =>
        if truthy t then
          match loaded d with
          | JArr l => (added_response (JArr (l ++ [serialized t])),
                       saved (JArr (l ++ [t])) d)
          | _ => (uncaught TypeError, d)
          end
        else (Api.task_required, d)
    | None => (Api.task_required, d)
    end.
Proof.
  unfold handle, Api.post, bind at 1. cbn [get_task]. unfold ret at 1.
  destruct (assoc "task" fields) as [t|]; [|reflexivity].
  destruct (truthy t); [|reflexivity]. cbn [negb].
  unfold bind at 1. rewrite readTasks_loaded.
  destruct (loaded d) as [| b | n | neg | s | l | fs] eqn:Hload;
    try reflexivity.
  apply loaded_array_fixed in Hload.
  cbv [bind push ret Api.writeTasks fs_writeFileSync JSON_stringify res_json].
  unfold added_response, saved. cbn [serialized map fst snd].
  rewrite map_app. cbn [map].
  apply map_fixed in Hload. rewrite Hload. reflexivity.
Qed.

Lemma views_post_object (fields : list (string * json)) (d : disk) :
  handle (Views.post_add (JObj fields)) d =
    match assoc "task" fields with
    | Some t =>
        if truthy t then
          match loaded d with
          | JArr l => (redirect "/", saved (JArr (l ++ [t])) d)
          | _ => (uncaught TypeError, d)
          end
        else (Views.task_required, d)
    | None => (Views.task_required, d)
    end.
Proof.
  unfold handle, Views.post_add, bind at 1. cbn [get_task]. unfold ret at 1.
  destruct (assoc "task" fields) as [t|]; [|reflexivity].
  destruct (truthy t); [|reflexivity]. cbn [negb].
  unfold bind at 1. rewrite readTasks_same, readTasks_loaded.
  destruct (loaded d); reflexivity.
Qed.

Lemma api_get_loaded (d : disk) :
  handle Api.get d = (json_response 200 (loaded d), d).
Proof.
  unfold handle, Api.get, bind. rewrite readTasks_loaded.
  unfold res_json, ret. rewrite loaded_fixed. reflexivity.
Qed.

Lemma api_get_saved (l : list json) (d : disk) :
  Forall (fun x => serialized x = x) l ->
  handle Api.get (saved (JArr l) d)
    = (json_response 200 (JArr l), saved (JArr l) d).
Proof.
  intros Hfix. rewrite api_get_loaded. unfold loaded, saved at 1. cbn [file].
  rewrite (serialized_fixed_array l Hfix). reflexivity.
Qed.

Lemma api_get_saved_any (v : json) (d : disk) :
  handle Api.get (saved v d) = (json_response 200 (serialized v), saved v d).
Proof.
  rewrite api_get_loaded. reflexivity.
Qed.

Lemma serialized_snoc (l : list json) (t : json) :
  Forall (fun x => serialized x = x) l ->
  serialized (JArr (l ++ [t])) = JArr (l ++ [serialized t]).
Proof.
  intros Hfix. cbn [serialized]. rewrite map_app. cbn [map].
  apply map_fixed in Hfix. rewrite Hfix. reflexivity.
Qed.



Lemma views_get_loaded (d : disk) :
  handle Views.get d = (render "index" (JObj [("tasks", loaded d)]), d).
Proof.
  unfold handle, Views.get, bind. rewrite readTasks_same, readTasks_loaded.
  reflexivity.
Qed.

End Adding.

Section Numerals.





End Numerals.

(** * The claims *)

Section Claims.
Variable coerce_ge : Z -> json -> bool.

(** C10.  Listing only reads: [GET /tasks] (and the page render) leaves the
    file and the log of writes exactly as they were, whatever the file
    holds, missing and malformed files included, and a second listing
    right after the first answers the same. *)
Theorem list_reads_only (d : disk) :
  snd (Api.readTasks d) = d /\
  snd (handle Api.get d) = d /\
  snd (handle Views.get d) = d /\
  handle Api.get (snd (handle Api.get d)) = handle Api.get d /\
  handle Views.get (snd (handle Views.get d)) = handle Views.get d.
Proof.
  rewrite readTasks_loaded, !api_get_loaded, !views_get_loaded.
  cbn [fst snd]. rewrite ?api_get_loaded, ?views_get_loaded.
  repeat split.
Qed.

(** C2, amended.  A listing never throws.  It answers the empty array when
    there is no file and when the file's text is not valid JSON; text that
    is valid JSON is answered as the value it encodes, array or not.  The
    text written for [v] encodes [serialized v], which is [v] itself when
    [v] holds no non-finite number. *)
Theorem list_fail_open (w : list text) (v : json) :
  let missing := Disk None w in
  let malformed := Disk (Some Junk) w in
  let valid := Disk (Some (Encoded v)) w in
  Api.readTasks missing = (Return (JArr []), missing) /\
  Api.readTasks malformed = (Return (JArr []), malformed) /\
  Api.readTasks valid = (Return (serialized v), valid) /\
  Views.readTasks missing = (Return (JArr []), missing) /\
  Views.readTasks malformed = (Return (JArr []), malformed) /\
  Views.readTasks valid = (Return (serialized v), valid) /\
  handle Api.get missing = (json_response 200 (JArr []), missing) /\
  handle Api.get malformed = (json_response 200 (JArr []), malformed) /\
  handle Api.get valid = (json_response 200 (serialized v), valid) /\
  (finite v = true -> serialized v = v).
Proof.
  intros missing malformed valid.
  repeat split; try apply (api_get_loaded valid).
  apply serialized_finite.
Qed.

(** C7.  A removal that answers "Invalid task index" has written nothing:
    the file and the log of writes are as before the call, for every index
    text and every content of the file, in both routers. *)
Theorem removeAt_failure_writes_nothing (d : disk) (index : string) :
  (fst (handle (Api.delete coerce_ge index) d) = Api.invalid_index ->
   snd (handle (Api.delete coerce_ge index) d) = d) /\
  (fst (handle (Views.get_delete coerce_ge index) d) = Views.invalid_index ->
   snd (handle (Views.get_delete coerce_ge index) d) = d).
Proof.
  split; intros H.
  - eapply ending_invalid; [apply api_delete_ending | left; exact H].
  - eapply ending_invalid; [apply views_delete_ending | right; exact H].
Qed.


(** C1, as the code has it.  When the file loads as the array [l] and the
    index text parses to a position [i] that holds [x], the [deletedTask]
    field of the answer is the one-element array [[x]], which is what
    [splice] returns, and not [x] itself. *)
Theorem removeAt_returns_removed_in_array
    (d : disk) (l : list json) (index : string) (i : Z) (x : json) :
  Api.readTasks d = (Return (JArr l), d) ->
  parseInt index = Some i ->
  0 <= i ->
  l !! Z.to_nat i = Some x ->
  JArr [x] <> x /\
  exists remaining,
    fst (handle (Api.delete coerce_ge index) d) =
      json_response 200
        (JObj [("message", JStr "Task deleted successfully");
               ("deletedTask", JArr [x]);
               ("tasks", remaining)]).
Proof.
  intros Hread Hparse Hpos Hx. split; [apply singleton_array_differs|].
  assert (Hlt : (Z.to_nat i < length l)%nat).
  { apply lookup_lt_is_Some_1. exists x. exact Hx. }
  rewrite (api_delete_array coerce_ge d l index Hread), Hparse.
  cbn [rejected].
  replace ((i <? 0) || (Z.of_nat (length l) <=? i)) with false
    by (symmetry; apply orb_false_iff; lia).
  cbv zeta. cbn [default from_option id fst].
  rewrite (take_one_drop l _ x Hx).
  eexists. reflexivity.
Qed.

(** C3, amended.  Against a file that loads as the array [l], a removal
    answers "Invalid task index" exactly when [parseInt] of the index text
    is [NaN], or negative, or at least [length l].  [parseInt] reads the
    longest numeric prefix, so text such as ["1.5"] or ["1abc"] counts as
    the integer in front. *)
Theorem removeAt_fails_iff_rejected
    (d : disk) (l : list json) (index : string) :
  Api.readTasks d = (Return (JArr l), d) ->
  let out_of_range :=
    parseInt index = None \/
    exists i, parseInt index = Some i /\ (i < 0 \/ Z.of_nat (length l) <= i) in
  (fst (handle (Api.delete coerce_ge index) d) = Api.invalid_index
     <-> out_of_range) /\
  (fst (handle (Views.get_delete coerce_ge index) d) = Views.invalid_index
     <-> out_of_range) /\
  parseInt "1.5" = Some 1 /\
  parseInt "1abc" = Some 1.
Proof.
  intros Hread out_of_range. subst out_of_range.
  rewrite <- rejected_iff.
  rewrite (api_delete_array coerce_ge d l index Hread).
  rewrite (views_delete_array coerce_ge d l index Hread).
  destruct (rejected (parseInt index) (length l)); cbv zeta; cbn [fst].
  - repeat split.
  - repeat split; intros H; discriminate H.
Qed.

(** C9.  A POST whose [task] field is falsy is refused with "Task is
    required" and nothing is written; the field being present and equal
    to [0], [false], [null] or [""] is such a case. *)
Theorem add_rejects_falsy
    (fields : list (string * json)) (t : json) (d : disk) :
  assoc "task" fields = Some t ->
  truthy t = false \/
    t = JNum 0 \/ t = JBool false \/ t = JNull \/ t = JStr "" ->
  handle (Api.post (JObj fields)) d =
    (json_response 400 (JObj [("error", JStr "Task is required")]), d) /\
  handle (Views.post_add (JObj fields)) d =
    (send_response 400 "Task is required", d).
Proof.
  intros Htask Hfalsy.
  assert (Ht : truthy t = false).
  { destruct Hfalsy as [H|[H|[H|[H|H]]]]; subst; reflexivity || exact H. }
  rewrite api_post_object, views_post_object, Htask, Ht.
  split; reflexivity.
Qed.


(** C6, amended.  A POST is refused with "Task is required" exactly when
    its [task] field is falsy, that is absent, [null], [""], [false] or
    [0]; a refused POST leaves the file and the log of writes as they
    were. *)
Theorem add_fails_iff_falsy (fields : list (string * json)) (d : disk) :
  let task := assoc "task" fields in
  (falsy task = true <->
     task = None \/ task = Some JNull \/ task = Some (JStr "") \/
     task = Some (JBool false) \/ task = Some (JNum 0)) /\
  (fst (handle (Api.post (JObj fields)) d) = Api.task_required
     <-> falsy task = true) /\
  (fst (handle (Views.post_add (JObj fields)) d) = Views.task_required
     <-> falsy task = true) /\
  (falsy task = true ->
     snd (handle (Api.post (JObj fields)) d) = d /\
     snd (handle (Views.post_add (JObj fields)) d) = d).
Proof.
  intros task. rewrite api_post_object, views_post_object. fold task.
  split; [|split; [|split]].
  - destruct task as [[| [|] | n | neg | s | l | fs]|]; cbn; split;
      try (intros H; discriminate H); try tauto;
      try (intros [H|[H|[H|[H|H]]]]; discriminate H).
    + destruct (Z.eqb_spec n 0) as [->|Hn]; cbn; [tauto|discriminate].
    + intros [H|[H|[H|[H|H]]]]; try discriminate H.
      injection H as ->. reflexivity.
    + destruct (String.eqb_spec s "") as [->|Hs]; cbn; [tauto|discriminate].
    + intros [H|[H|[H|[H|H]]]]; try discriminate H.
      injection H as ->. reflexivity.
  - destruct task as [t|]; cbn [falsy]; [|split; reflexivity].
    destruct (truthy t); cbn [negb]; [|split; reflexivity].
    destruct (loaded d); cbn [fst]; split; intros H; discriminate H.
  - destruct task as [t|]; cbn [falsy]; [|split; reflexivity].
    destruct (truthy t); cbn [negb]; [|split; reflexivity].
    destruct (loaded d); cbn [fst]; split; intros H; discriminate H.
  - destruct task as [t|]; cbn [falsy]; [|split; reflexivity].
    destruct (truthy t); cbn [negb]; [intros H; discriminate H|].
    split; reflexivity.
Qed.

(** C8, as the code has it.  From a store with no file, and from one that
    holds the empty array, the eight calls of the scenario answer as
    listed; the removal at [0] answers the one-element array
    [["Buy milk"]] as [deletedTask], and the removal at [5] answers
    "Invalid task index" and leaves ["Walk dog"] in place. *)
Theorem scenario_responses (w : list text) :
  let buy := JStr "Buy milk" in
  let walk := JStr "Walk dog" in
  let responses :=
    [ added_response (JArr [buy]);
      json_response 200 (JArr [buy]);
      added_response (JArr [buy; walk]);
      json_response 200 (JArr [buy; walk]);
      deleted_response (JArr [buy]) (JArr [walk]);
      json_response 200 (JArr [walk]);
      json_response 400 (JObj [("error", JStr "Invalid task index")]);
      json_response 200 (JArr [walk]) ] in
  fst (serve (scenario coerce_ge) (Disk None w)) = responses /\
  fst (serve (scenario coerce_ge) (Disk (Some (Encoded (JArr []))) w))
    = responses /\
  file (snd (serve (scenario coerce_ge) (Disk None w)))
    = Some (Encoded (JArr [walk])).
Proof.
  repeat split.
Qed.

End Claims.

(** * Instances and counterexamples *)


(** C2: a file holding the JSON object [{}] is listed as that object. *)
Lemma list_of_stored_object_not_empty :
  Api.readTasks object_file = (Return (JObj []), object_file) /\
  Views.readTasks object_file = (Return (JObj []), object_file) /\
  fst (handle Api.get object_file) = json_response 200 (JObj []) /\
  fst (handle Api.get object_file) <> json_response 200 (JArr []).
Proof.
  repeat split. intros H. discriminate H.
Qed.

(** C3: the index text ["1.5"] removes position 1, and ["1abc"] as well. *)
Lemma removeAt_accepts_fractional_index :
  handle (Api.delete never_ge "1.5") two_tasks =
    (deleted_response (JArr [JStr "b"]) (JArr [JStr "a"]),
     saved (JArr [JStr "a"]) two_tasks) /\
  fst (handle (Api.delete never_ge "1.5") two_tasks) <> Api.invalid_index /\
  fst (handle (Api.delete never_ge "1abc") two_tasks) <> Api.invalid_index /\
  fst (handle (Views.get_delete never_ge "1.5") two_tasks)
    <> Views.invalid_index.
Proof.
  repeat split; intros H; discriminate H.
Qed.


(** C6: the task value [false] is neither absent nor empty, yet the POST
    fails with "Task is required". *)
Lemma add_refuses_false :
  spec_absent_or_empty (Some (JBool false)) = false /\
  fst (handle (Api.post (add_body (JBool false))) no_file)
    = Api.task_required /\
  fst (handle (Views.post_add (add_body (JBool false))) no_file)
    = Views.task_required.
Proof.
  repeat split.
Qed.

(** A posted [1e400] parses to [Infinity]: it passes the task check, and is
    written, answered and listed as [null]. *)
Lemma add_infinity_lists_null :
  handle (Api.post (add_body (JInfinity false))) one_task
    = (added_response (JArr [JStr "Walk dog"; JNull]),
       saved (JArr [JStr "Walk dog"; JInfinity false]) one_task) /\
  fst (handle Api.get
         (snd (handle (Api.post (add_body (JInfinity false))) one_task)))
    = json_response 200 (JArr [JStr "Walk dog"; JNull]) /\
  fst (handle Views.get
         (snd (handle (Views.post_add (add_body (JInfinity false))) one_task)))
    = render "index" (JObj [("tasks", JArr [JStr "Walk dog"; JNull])]).
Proof.
  repeat split.
Qed.

(** * Witnesses *)

Lemma list_fail_open_witness :
  finite (JObj []) = true /\
  handle Api.get object_file = (json_response 200 (JObj []), object_file).
Proof.
  split; [reflexivity|].
  pose proof (list_fail_open [] (JObj [])) as H. cbv zeta in H.
  destruct H as (_ & _ & _ & _ & _ & _ & _ & _ & Hget & Hfin).
  rewrite (Hfin eq_refl) in Hget. exact Hget.
Defined.

Lemma removeAt_returns_removed_in_array_witness :
  Api.readTasks one_task = (Return (JArr [JStr "Walk dog"]), one_task) /\
  parseInt "0" = Some 0 /\
  [JStr "Walk dog"] !! Z.to_nat 0 = Some (JStr "Walk dog") /\
  JArr [JStr "Walk dog"] <> JStr "Walk dog" /\
  exists remaining,
    fst (handle (Api.delete never_ge "0") one_task) =
      json_response 200
        (JObj [("message", JStr "Task deleted successfully");
               ("deletedTask", JArr [JStr "Walk dog"]);
               ("tasks", remaining)]).
Proof.
  split; [reflexivity|]. split; [reflexivity|]. split; [reflexivity|].
  apply (removeAt_returns_removed_in_array never_ge one_task
           [JStr "Walk dog"] "0" 0 (JStr "Walk dog"));
    [reflexivity | reflexivity | lia | reflexivity].
Defined.

Lemma removeAt_fails_iff_rejected_witness :
  Api.readTasks two_tasks = (Return (JArr [JStr "a"; JStr "b"]), two_tasks) /\
  fst (handle (Api.delete never_ge "2") two_tasks) = Api.invalid_index /\
  fst (handle (Views.get_delete never_ge "-1") two_tasks) = Views.invalid_index.
Proof.
  split; [reflexivity|].
  split.
  - apply (removeAt_fails_iff_rejected never_ge two_tasks
             [JStr "a"; JStr "b"] "2"); [reflexivity|].
    right. exists 2. split; [reflexivity | right; cbn; lia].
  - apply (removeAt_fails_iff_rejected never_ge two_tasks
             [JStr "a"; JStr "b"] "-1"); [reflexivity|].
    right. exists (-1). split; [reflexivity | left; lia].
Defined.



Lemma add_fails_iff_falsy_witness :
  falsy (assoc "task" [("task", JNull)]) = true /\
  snd (handle (Api.post (add_body JNull)) two_tasks) = two_tasks /\
  snd (handle (Views.post_add (add_body JNull)) two_tasks) = two_tasks.
Proof.
  split; [reflexivity|].
  apply (add_fails_iff_falsy [("task", JNull)] two_tasks). reflexivity.
Defined.

Lemma removeAt_failure_writes_nothing_witness :
  fst (handle (Api.delete never_ge "5") one_task) = Api.invalid_index /\
  snd (handle (Api.delete never_ge "5") one_task) = one_task /\
  fst (handle (Views.get_delete never_ge "x") one_task) = Views.invalid_index /\
  snd (handle (Views.get_delete never_ge "x") one_task) = one_task.
Proof.
  split; [reflexivity|]. split.
  - apply (removeAt_failure_writes_nothing never_ge one_task "5"). reflexivity.
  - split; [reflexivity|].
    apply (removeAt_failure_writes_nothing never_ge one_task "x"). reflexivity.
Defined.

Lemma add_rejects_falsy_witness :
  assoc "task" [("task", JNum 0)] = Some (JNum 0) /\
  handle (Api.post (JObj [("task", JNum 0)])) one_task =
    (json_response 400 (JObj [("error", JStr "Task is required")]), one_task) /\
  handle (Views.post_add (JObj [("task", JNum 0)])) one_task =
    (send_response 400 "Task is required", one_task).
Proof.
  split; [reflexivity|].
  apply (add_rejects_falsy [("task", JNum 0)] (JNum 0) one_task);
    [reflexivity | right; left; reflexivity].
Defined.

(** * Further properties of the routers *)

Section Outcomes.
Variable coerce_ge : Z -> json -> bool.

(** The ways a POST can end, with what the disk is afterwards. *)
Inductive post_ending (d : disk) : response * disk -> response * disk -> Prop :=
| post_refused :
    post_ending d (Api.task_required, d) (Views.task_required, d)
| post_threw :
    post_ending d (uncaught TypeError, d) (uncaught TypeError, d)
| post_added l t :
    loaded d = JArr l ->
    truthy t = true ->
    post_ending d
      (added_response (JArr (l ++ [serialized t])), saved (JArr (l ++ [t])) d)
      (redirect "/", saved (JArr (l ++ [t])) d).

(** The ways a removal can end, with what the disk is afterwards. *)
Inductive delete_ending (d : disk)
  : response * disk -> response * disk -> Prop :=
| delete_refused :
    delete_ending d (Api.invalid_index, d) (Views.invalid_index, d)
| delete_threw :
    delete_ending d (uncaught TypeError, d) (uncaught TypeError, d)
| delete_removed l n x :
    loaded d = JArr l ->
    l !! n = Some x ->
    delete_ending d
      (deleted_response (JArr [x]) (JArr (delete n l)),
       saved (JArr (delete n l)) d)
      (redirect "/", saved (JArr (delete n l)) d).

Ltac run_handler :=
  cbv [handle Api.post Views.post_add Api.delete Views.get_delete
       Api.get Views.get bind ret throw try_catch
       Api.readTasks Views.readTasks Api.writeTasks
       fs_readFileSync fs_writeFileSync JSON_parse JSON_stringify
       get_task get_length push file written].

Lemma post_endings (body : json) (d : disk) :
  post_ending d (handle (Api.post body) d) (handle (Views.post_add body) d).
Proof.
  destruct body as [| b | n | neg | s | l | fields];
    try (run_handler; constructor).
  rewrite api_post_object, views_post_object.
  destruct (assoc "task" fields) as [t|]; [|constructor].
  destruct (truthy t) eqn:Ht; [|constructor].
  destruct (loaded d) as [| b | n | neg | s | l | fs] eqn:Hload;
    try solve [constructor].
  apply (post_added d l t Hload Ht).
Qed.

Lemma delete_endings (index : string) (d : disk) :
  delete_ending d (handle (Api.delete coerce_ge index) d)
                  (handle (Views.get_delete coerce_ge index) d).
Proof.
  destruct (loaded d) as [| b | n | neg | s | l | fields] eqn:Hload.
  6: { pose proof Hload as Hread. apply readTasks_array in Hread.
       rewrite (api_delete_array coerce_ge d l index Hread).
       rewrite (views_delete_array coerce_ge d l index Hread).
       destruct (parseInt index) as [i|]; cbn [rejected]; [|constructor].
       destruct (Z.ltb_spec i 0) as [Hneg|Hpos]; [constructor|].
       destruct (Z.leb_spec (Z.of_nat (length l)) i) as [Hbig|Hin];
         [constructor|].
       cbn [orb]. cbv zeta. cbn [default from_option id].
       destruct (lookup_lt_is_Some_2 l (Z.to_nat i)) as [x Hx]; [lia|].
       rewrite (take_one_drop l _ x Hx).
       apply (delete_removed d l _ x Hload Hx). }
  all: cbv [handle Api.delete Views.get_delete bind];
    rewrite readTasks_same, readTasks_loaded, Hload;
    cbv [ret throw get_length splice];
    destruct (parseInt index) as [i|]; [|constructor];
    destruct (i <? 0); [constructor|]; try solve [constructor];
    destruct (ge coerce_ge i _); constructor.
Qed.

End Outcomes.

Section Steps.
Variable coerce_ge : Z -> json -> bool.

Lemma serve_cons (h : io response) (rest : list (io response)) (d : disk) :
  serve (h :: rest) d =
    (fst (handle h d) :: fst (serve rest (snd (handle h d))),
     snd (serve rest (snd (handle h d)))).
Proof.
  cbn [serve]. destruct (handle h d) as [r d']. cbn [fst snd].
  destruct (serve rest d') as [rs d'']. reflexivity.
Qed.


(** One request either leaves the disk alone or, on a disk that loads as an
    array, writes an array once. *)
Lemma api_step (r : request) (d : disk) :
  snd (handle (api_route coerce_ge r) d) = d \/
  exists l l', loaded d = JArr l /\
               snd (handle (api_route coerce_ge r) d) = saved (JArr l') d.
Proof.
  destruct r as [| body | index]; cbn [api_route].
  - left. rewrite api_get_loaded. reflexivity.
  - pose proof (post_endings body d) as H.
    inversion H as [Ha Hv | Ha Hv | l t Hl Ht Ha Hv]; cbn [snd]; eauto.
  - pose proof (delete_endings coerce_ge index d) as H.
    inversion H as [Ha Hv | Ha Hv | l n x Hl Hx Ha Hv]; cbn [snd]; eauto.
Qed.

(** The view router leaves the disk as the JSON API does. *)
Lemma views_step (r : request) (d : disk) :
  snd (handle (views_route coerce_ge r) d)
    = snd (handle (api_route coerce_ge r) d).
Proof.
  destruct r as [| body | index]; cbn [api_route views_route].
  - rewrite api_get_loaded, views_get_loaded. reflexivity.
  - pose proof (post_endings body d) as H.
    inversion H as [Ha Hv | Ha Hv | l t Hl Ht Ha Hv]; reflexivity.
  - pose proof (delete_endings coerce_ge index d) as H.
    inversion H as [Ha Hv | Ha Hv | l n x Hl Hx Ha Hv]; reflexivity.
Qed.

End Steps.

Section IndexTexts.
Variable coerce_ge : Z -> json -> bool.

(** The removal handlers look at the index text through [parseInt] only. *)
Lemma delete_by_parseInt (a b : string) :
  parseInt a = parseInt b ->
  Api.delete coerce_ge a = Api.delete coerce_ge b /\
  Views.get_delete coerce_ge a = Views.get_delete coerce_ge b.
Proof.
  intros H. unfold Api.delete, Views.get_delete. rewrite H.
  split; reflexivity.
Qed.

(** A character that is no decimal digit ends the digits read so far. *)
Lemma digits_uint_app (u : Decimal.uint) (a : Z) (c : ascii) (rest : string) :
  digit 10 c = None ->
  digits 10 (Some a) (NilEmpty.string_of_uint u ++ String c rest)
    = digits 10 (Some a) (NilEmpty.string_of_uint u).
Proof.
  intros Hc. revert a.
  induction u as [|u IH|u IH|u IH|u IH|u IH|u IH|u IH|u IH|u IH|u IH];
    intros a; cbn [NilEmpty.string_of_uint append digits].
  1: rewrite Hc; reflexivity.
  all: match goal with
       | |- context [digit 10 ?k] =>
           let v := eval vm_compute in (digit 10 k) in
           change (digit 10 k) with v
       end; apply IH.
Qed.

Ltac parse_decimal :=
  repeat match goal with
  | |- context [parseInt (String ?k ?s)] =>
      change (parseInt (String k s))
        with (match digits 10 (Some 0) (String k s) with
              | Some m => Some (1 * m)
              | None => None
              end)
  end.

Lemma parseInt_uint_suffix (u : Decimal.uint) (c : ascii) (rest : string) :
  u <> Decimal.Nil ->
  digit 10 c = None ->
  (u = Decimal.D0 Decimal.Nil -> c <> "x"%char /\ c <> "X"%char) ->
  parseInt (NilEmpty.string_of_uint u ++ String c rest)
    = parseInt (NilEmpty.string_of_uint u).
Proof.
  intros Hu Hc Hx.
  destruct u as [|u|u|u|u|u|u|u|u|u|u]; [congruence|..].
  1: destruct u as [|u|u|u|u|u|u|u|u|u|u].
  1: { destruct (Hx eq_refl) as [Hx1 Hx2]. clear Hx Hu.
       cbn [NilEmpty.string_of_uint append].
       destruct c as [[] [] [] [] [] [] [] []];
         try discriminate Hc; try congruence; reflexivity. }
  all: cbn [NilEmpty.string_of_uint append]; parse_decimal;
    cbn [digits];
    repeat match goal with
           | |- context [digit 10 ?k] =>
               is_ground k;
               let v := eval vm_compute in (digit 10 k) in
               change (digit 10 k) with v
           end;
    cbn [default from_option id];
    rewrite digits_uint_app by exact Hc; reflexivity.
Qed.

Lemma numeral_not_nil (n : nat) : Nat.to_uint n <> Decimal.Nil.
Proof.
  intros Hnil. pose proof (Unsigned.of_to n) as Hval.
  rewrite Hnil in Hval. cbn in Hval. subst n. discriminate Hnil.
Qed.

Lemma parseInt_numeral_suffix (n : nat) (c : ascii) (rest : string) :
  digit 10 c = None ->
  (n = 0%nat -> c <> "x"%char /\ c <> "X"%char) ->
  parseInt (numeral n ++ String c rest) = parseInt (numeral n).
Proof.
  intros Hc Hx. unfold numeral.
  apply parseInt_uint_suffix; [apply numeral_not_nil | exact Hc |].
  intros Hu. apply Hx. rewrite <- (Unsigned.of_to n), Hu. reflexivity.
Qed.

End IndexTexts.

Section Extras.
Variable coerce_ge : Z -> json -> bool.

(** X1.  When the file holds valid JSON that is not an array, a POST that
    passes the task check throws a TypeError at [tasks.push] in both routers
    and the file is left as it was. *)
Theorem add_to_non_array_throws
    (fields : list (string * json)) (t v : json) (d : disk) :
  Api.readTasks d = (Return v, d) ->
  is_array v = false ->
  assoc "task" fields = Some t ->
  truthy t = true ->
  handle (Api.post (JObj fields)) d = (uncaught TypeError, d) /\
  handle (Views.post_add (JObj fields)) d = (uncaught TypeError, d).
Proof.
  intros Hread Hv Htask Ht.
  rewrite readTasks_loaded in Hread. injection Hread as Hload.
  rewrite api_post_object, views_post_object, Htask, Ht, Hload.
  destruct v; try discriminate Hv; split; reflexivity.
Qed.

(** X2.  When the file holds valid JSON that is not an array, a removal
    never writes: it answers "Invalid task index" or throws a TypeError, and
    the disk is as before, for every index text. *)
Theorem remove_from_non_array_never_writes
    (v : json) (d : disk) (index : string) :
  Api.readTasks d = (Return v, d) ->
  is_array v = false ->
  (handle (Api.delete coerce_ge index) d = (Api.invalid_index, d) /\
   handle (Views.get_delete coerce_ge index) d = (Views.invalid_index, d)) \/
  (handle (Api.delete coerce_ge index) d = (uncaught TypeError, d) /\
   handle (Views.get_delete coerce_ge index) d = (uncaught TypeError, d)).
Proof.
  intros Hread Hv.
  rewrite readTasks_loaded in Hread. injection Hread as Hload.
  pose proof (delete_endings coerce_ge index d) as H.
  inversion H as [Ha Hb | Ha Hb | l n x Hl Hx Ha Hb].
  - left. split; reflexivity.
  - right. split; reflexivity.
  - rewrite Hl in Hload. subst v. discriminate Hv.
Qed.

(** X3.  A removal whose index text [parseInt] reads as [NaN] or as a
    negative number answers "Invalid task index" and writes nothing whatever
    the file holds: the two tests come before [tasks.length] is read, so
    even a stored [null] does not make it throw. *)
Theorem remove_nan_or_negative_fails (d : disk) (index : string) :
  parseInt index = None \/ (exists i, parseInt index = Some i /\ i < 0) ->
  handle (Api.delete coerce_ge index) d = (Api.invalid_index, d) /\
  handle (Views.get_delete coerce_ge index) d = (Views.invalid_index, d).
Proof.
  intros Hidx.
  unfold handle, Api.delete, Views.get_delete, bind.
  rewrite readTasks_same, readTasks_loaded.
  destruct Hidx as [Hnan | (i & Hi & Hneg)].
  - rewrite Hnan. split; reflexivity.
  - rewrite Hi. destruct (Z.ltb_spec i 0) as [_|Hpos]; [|lia].
    split; reflexivity.
Qed.

(** X4.  While the list is empty (no file, a malformed file, or a stored
    [[]]), every removal answers "Invalid task index" and writes nothing; in
    particular a missing file is not created and a malformed one is not
    replaced. *)
Theorem remove_from_empty_always_fails (d : disk) (index : string) :
  Api.readTasks d = (Return (JArr []), d) ->
  handle (Api.delete coerce_ge index) d = (Api.invalid_index, d) /\
  handle (Views.get_delete coerce_ge index) d = (Views.invalid_index, d).
Proof.
  intros Hread.
  rewrite (api_delete_array coerce_ge d [] index Hread).
  rewrite (views_delete_array coerce_ge d [] index Hread).
  assert (Hrej : rejected (parseInt index) (length (@nil json)) = true).
  { destruct (parseInt index) as [i|]; cbn [rejected length]; [|reflexivity].
    apply orb_true_iff. rewrite Z.ltb_lt, Z.leb_le. lia. }
  rewrite Hrej. split; reflexivity.
Qed.


(** X6.  Over any sequence of requests, the view router leaves the disk
    exactly as the JSON API does on the same requests: the two differ only
    in how they answer. *)
Theorem routers_agree_on_disk (rs : list request) (d : disk) :
  snd (serve (map (views_route coerce_ge) rs) d)
    = snd (serve (map (api_route coerce_ge) rs) d).
Proof.
  revert d. induction rs as [|r rs IH]; intros d; [reflexivity|].
  cbn [map]. rewrite !serve_cons. cbn [snd].
  rewrite views_step. apply IH.
Qed.

(** X7.  A file that holds valid JSON other than an array wedges the store:
    no sequence of requests changes the disk, so every later listing still
    answers that value. *)
Theorem non_array_store_is_stuck (rs : list request) (v : json) (d : disk) :
  Api.readTasks d = (Return v, d) ->
  is_array v = false ->
  snd (serve (map (api_route coerce_ge) rs) d) = d /\
  snd (serve (map (views_route coerce_ge) rs) d) = d.
Proof.
  intros Hread Hv.
  rewrite readTasks_loaded in Hread. injection Hread as Hload.
  assert (Hstep : forall r, snd (handle (api_route coerce_ge r) d) = d).
  { intros r.
    destruct (api_step coerce_ge r d) as [Hsame | (l & l' & Hl & _)];
      [exact Hsame|].
    rewrite Hl in Hload. subst v. discriminate Hv. }
  split; induction rs as [|r rs IH]; try reflexivity;
    cbn [map]; rewrite serve_cons; cbn [snd];
    rewrite ?views_step, Hstep; exact IH.
Qed.

(** X8.  Every request writes at most once and only arrays: after any
    sequence of requests the log of writes is the old log with array
    payloads put in front, and the file is the latest of them, or the old
    file when there was none. *)
Theorem requests_write_only_arrays (rs : list request) (d : disk) :
  exists ws,
    written (snd (serve (map (api_route coerce_ge) rs) d))
      = (ws ++ written d)%list /\
    forallb array_text ws = true /\
    (length ws <= length rs)%nat /\
    file (snd (serve (map (api_route coerce_ge) rs) d))
      = match ws with
        | [] => file d
        | w :: _ => Some w
        end.
Proof.
  revert d. induction rs as [|r rs IH]; intros d.
  - exists []. repeat split. cbn. lia.
  - cbn [map]. rewrite serve_cons. cbn [snd].
    destruct (IH (snd (handle (api_route coerce_ge r) d)))
      as (ws & Hlog & Harr & Hlen & Hfile).
    destruct (api_step coerce_ge r d) as [Hsame | (l & l' & Hl & Hsaved)].
    + rewrite Hsame in *. exists ws. cbn [length].
      repeat split; [exact Hlog | exact Harr | lia | exact Hfile].
    + rewrite Hsaved in *. cbn [saved written file] in *.
      exists (ws ++ [Encoded (JArr l')])%list.
      split; [rewrite Hlog, <- app_assoc; reflexivity|].
      split; [rewrite forallb_app, Harr; reflexivity|].
      split; [rewrite length_app; cbn [length]; lia|].
      rewrite Hfile. destruct ws; reflexivity.
Qed.

(** X9.  A store that loads as an array loads as an array after any
    sequence of requests. *)
Theorem array_store_stays_array
    (rs : list request) (l : list json) (d : disk) :
  Api.readTasks d = (Return (JArr l), d) ->
  exists l',
    handle Api.get (snd (serve (map (api_route coerce_ge) rs) d))
      = (json_response 200 (JArr l'),
         snd (serve (map (api_route coerce_ge) rs) d)).
Proof.
  intros Hread. apply readTasks_array in Hread.
  revert d l Hread. induction rs as [|r rs IH]; intros d l Hload.
  - exists l. cbn [map serve snd]. rewrite api_get_loaded, Hload. reflexivity.
  - cbn [map]. rewrite serve_cons. cbn [snd].
    destruct (api_step coerce_ge r d) as [Hsame | (l0 & l' & Hl & Hsaved)].
    + rewrite Hsame. apply (IH d l Hload).
    + rewrite Hsaved. apply (IH _ (map serialized l')). reflexivity.
Qed.



(** X12.  Whatever follows the digits of an index text is ignored: the
    decimal text of [n] followed by a character that is not a decimal digit,
    and then by anything, is handled exactly as the text of [n] alone.  The
    one exception is ["0"] followed by [x] or [X], which starts a
    hexadecimal number. *)
Theorem index_suffix_ignored
    (n : nat) (c : ascii) (rest : string) (d : disk) :
  digit 10 c = None ->
  (n = 0%nat -> c <> "x"%char /\ c <> "X"%char) ->
  handle (Api.delete coerce_ge (numeral n ++ String c rest)) d
    = handle (Api.delete coerce_ge (numeral n)) d /\
  handle (Views.get_delete coerce_ge (numeral n ++ String c rest)) d
    = handle (Views.get_delete coerce_ge (numeral n)) d.
Proof.
  intros Hc Hx.
  destruct (delete_by_parseInt coerce_ge _ _
              (parseInt_numeral_suffix n c rest Hc Hx)) as [Ha Hv].
  rewrite Ha, Hv. split; reflexivity.
Qed.



(** X15.  What a successful answer of the JSON API shows under [tasks] is
    what is stored: a listing right after the POST or the DELETE answers
    that same value. *)
Theorem answer_shows_what_is_stored
    (body : json) (index : string) (d : disk) :
  (forall tasks,
      fst (handle (Api.post body) d) = added_response tasks ->
      handle Api.get (snd (handle (Api.post body) d))
        = (json_response 200 tasks, snd (handle (Api.post body) d))) /\
  (forall removed tasks,
      fst (handle (Api.delete coerce_ge index) d)
        = deleted_response removed tasks ->
      handle Api.get (snd (handle (Api.delete coerce_ge index) d))
        = (json_response 200 tasks,
           snd (handle (Api.delete coerce_ge index) d))).
Proof.
  split.
  - intros tasks. pose proof (post_endings body d) as H.
    inversion H as [Ha Hv | Ha Hv | l t Hl Ht Ha Hv]; cbn [fst snd];
      intros Heq; try discriminate Heq.
    injection Heq as <-. rewrite api_get_saved_any.
    rewrite (serialized_snoc l t (loaded_array_fixed d l Hl)). reflexivity.
  - intros removed tasks. pose proof (delete_endings coerce_ge index d) as H.
    inversion H as [Ha Hv | Ha Hv | l n x Hl Hx Ha Hv]; cbn [fst snd];
      intros Heq; try discriminate Heq.
    injection Heq as _ <-. apply api_get_saved.
    apply Forall_delete, (loaded_array_fixed d l Hl).
Qed.


(** X17.  A POST whose body has no [task] property is refused with "Task is
    required" and writes nothing, whether the body is an object without the
    key, an array, a string, a number or a boolean. *)
Theorem add_without_task_field (body : json) (d : disk) :
  body <> JNull ->
  (forall fields, body = JObj fields -> assoc "task" fields = None) ->
  handle (Api.post body) d = (Api.task_required, d) /\
  handle (Views.post_add body) d = (Views.task_required, d).
Proof.
  intros Hnull Hfields.
  destruct body as [| b | n | neg | s | l | fields]; [congruence|..];
    try (split; reflexivity).
  rewrite api_post_object, views_post_object, (Hfields fields eq_refl).
  split; reflexivity.
Qed.

End Extras.

(** * Witnesses of the further properties *)

Lemma add_to_non_array_throws_witness :
  Api.readTasks object_file = (Return (JObj []), object_file) /\
  is_array (JObj []) = false /\
  truthy (JStr "a") = true /\
  handle (Api.post (add_body (JStr "a"))) object_file
    = (uncaught TypeError, object_file) /\
  handle (Views.post_add (add_body (JStr "a"))) object_file
    = (uncaught TypeError, object_file).
Proof.
  split; [reflexivity|]. split; [reflexivity|]. split; [reflexivity|].
  apply (add_to_non_array_throws [("task", JStr "a")] (JStr "a") (JObj [])
           object_file); reflexivity.
Defined.

Lemma remove_from_non_array_never_writes_witness :
  Api.readTasks string_file = (Return (JStr "abc"), string_file) /\
  is_array (JStr "abc") = false /\
  ((handle (Api.delete never_ge "1") string_file
      = (Api.invalid_index, string_file) /\
    handle (Views.get_delete never_ge "1") string_file
      = (Views.invalid_index, string_file)) \/
   (handle (Api.delete never_ge "1") string_file
      = (uncaught TypeError, string_file) /\
    handle (Views.get_delete never_ge "1") string_file
      = (uncaught TypeError, string_file))).
Proof.
  split; [reflexivity|]. split; [reflexivity|].
  apply (remove_from_non_array_never_writes never_ge (JStr "abc")
           string_file "1"); reflexivity.
Defined.

Lemma remove_nan_or_negative_fails_witness :
  parseInt "-1" = Some (-1) /\
  handle (Api.delete never_ge "-1") null_file
    = (Api.invalid_index, null_file) /\
  handle (Views.get_delete never_ge "-1") null_file
    = (Views.invalid_index, null_file).
Proof.
  split; [reflexivity|].
  apply (remove_nan_or_negative_fails never_ge null_file "-1").
  right. exists (-1). split; [reflexivity | lia].
Defined.

Lemma remove_from_empty_always_fails_witness :
  Api.readTasks junk_file = (Return (JArr []), junk_file) /\
  handle (Api.delete never_ge "0") junk_file
    = (Api.invalid_index, junk_file) /\
  handle (Views.get_delete never_ge "0") junk_file
    = (Views.invalid_index, junk_file).
Proof.
  split; [reflexivity|].
  apply (remove_from_empty_always_fails never_ge junk_file "0"). reflexivity.
Defined.


Lemma non_array_store_is_stuck_witness :
  Api.readTasks null_file = (Return JNull, null_file) /\
  is_array JNull = false /\
  snd (serve (map (api_route never_ge)
                [Add_task (add_body (JStr "a")); Delete_task "0"; List_tasks])
         null_file) = null_file.
Proof.
  split; [reflexivity|]. split; [reflexivity|].
  apply (non_array_store_is_stuck never_ge
           [Add_task (add_body (JStr "a")); Delete_task "0"; List_tasks]
           JNull null_file); reflexivity.
Defined.

Lemma array_store_stays_array_witness :
  Api.readTasks no_file = (Return (JArr []), no_file) /\
  exists l',
    handle Api.get
      (snd (serve (map (api_route never_ge)
                     [Add_task (add_body (JStr "a")); Delete_task "7"])
              no_file))
    = (json_response 200 (JArr l'),
       snd (serve (map (api_route never_ge)
                     [Add_task (add_body (JStr "a")); Delete_task "7"])
              no_file)).
Proof.
  split; [reflexivity|].
  apply (array_store_stays_array never_ge
           [Add_task (add_body (JStr "a")); Delete_task "7"] [] no_file).
  reflexivity.
Defined.



Lemma index_suffix_ignored_witness :
  digit 10 "." = None /\
  handle (Api.delete never_ge (numeral 1 ++ String "." "5")) two_tasks
    = handle (Api.delete never_ge (numeral 1)) two_tasks.
Proof.
  split; [reflexivity|].
  apply (index_suffix_ignored never_ge 1 "." "5" two_tasks);
    [reflexivity | intros H; discriminate H].
Defined.



Lemma answer_shows_what_is_stored_witness :
  fst (handle (Api.post (add_body (JStr "c"))) two_tasks)
    = added_response (JArr [JStr "a"; JStr "b"; JStr "c"]) /\
  fst (handle Api.get (snd (handle (Api.post (add_body (JStr "c"))) two_tasks)))
    = json_response 200 (JArr [JStr "a"; JStr "b"; JStr "c"]).
Proof.
  split; [reflexivity|].
  destruct (answer_shows_what_is_stored never_ge (add_body (JStr "c")) "0"
              two_tasks) as [H _].
  rewrite (H (JArr [JStr "a"; JStr "b"; JStr "c"]) eq_refl). reflexivity.
Defined.


Lemma add_without_task_field_witness :
  JArr [JStr "task"] <> JNull /\
  handle (Api.post (JArr [JStr "task"])) one_task
    = (Api.task_required, one_task) /\
  handle (Views.post_add (JArr [JStr "task"])) one_task
    = (Views.task_required, one_task).
Proof.
  split; [intros H; discriminate H|].
  apply (add_without_task_field (JArr [JStr "task"]) one_task);
    intros; discriminate.
Defined.
